(** * Binder grade recommendation for national highways

    A shallow embedding of [highway_chainage_analysis.py]: the viscosity
    grade classifier [determine_vg_grade], the colorizer
    [get_vg_grade_color], and the two column assignments with which
    [visualize_highway_chainage] augments the segments table. *)

From Stdlib Require Import QArith Lqa Ascii.
From Stdlib Require Import Floats.SpecFloat.
From stdpp Require Import gmap strings list pretty.

Local Open Scope string_scope.

(** ** Numbers

    [determine_vg_grade] only ever compares its argument with an integer
    literal, through [<] and [>].  Anything that supports these two
    comparisons can be passed in; pandas hands over the cells of a numeric
    column. *)

Class PyNum (T : Type) := {
  of_int : Z -> T;
  py_lt : T -> T -> bool;
  py_gt : T -> T -> bool
}.

(** Exact numbers.  Every Python [int] and every finite [float] is a
    rational, and Python compares a float with an int exactly. *)
#[export] Instance Q_PyNum : PyNum Q := {|
  of_int := inject_Z;
  py_lt x y := match Qcompare x y with Lt => true | _ => false end;
  py_gt x y := match Qcompare x y with Gt => true | _ => false end
|}.

(** IEEE 754 binary64, the cells of a [float64] column: finite values,
    signed zeros, infinities and NaN (how pandas reads a missing value). *)
Definition float64_of_Z (z : Z) : spec_float :=
  binary_normalize 53 1024 z 0 false.

#[export] Instance float64_PyNum : PyNum spec_float := {|
  of_int := float64_of_Z;
  py_lt x y := SFltb x y;
  py_gt x y := SFltb y x
|}.

(** ** The classifier *)

Definition determine_vg_grade {T} `{PyNum T} (mean_temp : T) : string :=
  if py_lt mean_temp (of_int 30) then "VG-10"
  else if py_lt mean_temp (of_int 38) then "VG-20"
  else if py_lt mean_temp (of_int 45) then "VG-30"
  else if py_gt mean_temp (of_int 45) then "VG-40"
  else "VG-50".

(** The five labels the classifier can produce. *)
Definition vg_grades : list string :=
  ["VG-10"; "VG-20"; "VG-30"; "VG-40"; "VG-50"].

(** ** The colorizer *)

(** A dict display [{k1: v1, ..., kn: vn}] stores its items from left to
    right, a later item replacing an earlier one with the same key. *)
Definition dict_literal (items : list (string * string)) : gmap string string :=
  foldl (fun d kv => <[kv.1 := kv.2]> d) ∅ items.

(** [d.get(key, dflt)] *)
Definition dict_get (d : gmap string string) (key dflt : string) : string :=
  default dflt (d !! key).

Definition colors : gmap string string :=
  dict_literal
    [ ("VG-10", "#1f77b4");
      ("VG-20", "#ff7f0e");
      ("VG-30", "#2ca02c");
      ("VG-40", "#d62728");
      ("VG-50", "#9467bd") ].

Definition get_vg_grade_color (vg_grade : string) : string :=
  dict_get colors vg_grade "#7f7f7f".

(** The colors of the table, in the order of [vg_grades]. *)
Definition table_colors : list string :=
  ["#1f77b4"; "#ff7f0e"; "#2ca02c"; "#d62728"; "#9467bd"].

(** ** The decision policy as the specification words it

    An ordered list of guarded rules; the first rule whose guard holds
    decides, and a catch-all applies when none does. *)

Definition Qltb (x y : Q) : bool := negb (Qle_bool y x).

Fixpoint first_match {A B} (rules : list ((A -> bool) * B)) (otherwise : B) (a : A) : B :=
  match rules with
  | [] => otherwise
  | (guard, b) :: rest => if guard a then b else first_match rest otherwise a
  end.

Definition decision_policy : list ((Q -> bool) * string) :=
  [ (fun t => Qltb t 30, "VG-10");
    (fun t => Qle_bool 30 t && Qltb t 38, "VG-20");
    (fun t => Qle_bool 38 t && Qltb t 45, "VG-30");
    (fun t => Qltb 45 t, "VG-40") ].

Definition classifier_reference (t : Q) : string :=
  first_match decision_policy "VG-50" t.

(** ** Variants of a label

    Two strings are look-alikes when they spell the same letters and
    digits once letter case, blanks and punctuation are ignored. *)

Definition py_isupper (c : ascii) : bool :=
  let n := nat_of_ascii c in (65 <=? n)%nat && (n <=? 90)%nat.

Definition py_isalnum (c : ascii) : bool :=
  let n := nat_of_ascii c in
  ((48 <=? n)%nat && (n <=? 57)%nat) || py_isupper c
  || ((97 <=? n)%nat && (n <=? 122)%nat).

Definition ascii_lower (c : ascii) : ascii :=
  if py_isupper c then ascii_of_nat (nat_of_ascii c + 32) else c.

Fixpoint label_key (s : string) : string :=
  match s with
  | EmptyString => EmptyString
  | String c s' =>
      if py_isalnum c then String (ascii_lower c) (label_key s') else label_key s'
  end.

(** [s] is a variant of the label [k]. *)
Definition label_variant (k s : string) : Prop :=
  label_key s = label_key k.

(** ** Exceptions *)

Inductive PyExc : Type :=
| KeyError (key : string)
| TypeError.

Inductive result (A : Type) : Type :=
| Ok (a : A)
| Raise (e : PyExc).
Arguments Ok {A} a.
Arguments Raise {A} e.

#[export] Instance result_ret : MRet result := fun A a => Ok a.

#[export] Instance result_bind : MBind result := fun A B k m =>
  match m with
  | Ok a => k a
  | Raise e => Raise e
  end.

#[export] Instance result_fmap : FMap result := fun A B f m =>
  match m with
  | Ok a => Ok (f a)
  | Raise e => Raise e
  end.

(** ** The segments table

    A cell read from a CSV file is a number or a string; a column is the
    list of its cells in row order, and a frame maps column names to
    columns. *)

Inductive Cell (T : Type) : Type :=
| Num (x : T)
| Str (s : string).
Arguments Num {T} x.
Arguments Str {T} s.

Abbreviation Series T := (list (Cell T)).
Abbreviation DataFrame T := (gmap string (list (Cell T))).

(** Every column of the frame has [n] rows. *)
Definition frame_rows {T} (n : nat) (df : DataFrame T) : Prop :=
  map_Forall (fun _ col => length col = n) df.

(** The cell of column [c] in row [i], when there is one. *)
Definition cell_at {T} (df : DataFrame T) (c : string) (i : nat) : option (Cell T) :=
  col ← df !! c; col !! i.

(** [col.apply(func)]: [func] is called on the cells from the first row
    on, and the first exception ends the call. *)
Fixpoint series_apply {A B} (func : A -> result B) (col : list A) : result (list B) :=
  match col with
  | [] => Ok []
  | x :: col' =>
      y ← func x;
      ys ← series_apply func col';
      Ok (y :: ys)
  end.

(** ** Statements on the frame

    [segments_df] is mutated in place, and an exception leaves it the way
    it was when the exception was raised: a statement takes the frame to
    its outcome and the frame after it. *)

Definition Py (T A : Type) : Type := DataFrame T -> result A * DataFrame T.

#[export] Instance Py_ret {T} : MRet (Py T) := fun A a df => (Ok a, df).

#[export] Instance Py_bind {T} : MBind (Py T) := fun A B k m df =>
  match m df with
  | (Ok a, df') => k a df'
  | (Raise e, df') => (Raise e, df')
  end.

(** An expression that does not touch the frame. *)
Definition py_eval {T A} (r : result A) : Py T A := fun df => (r, df).

(** [segments_df[key]] *)
Definition getitem {T} (key : string) : Py T (Series T) := fun df =>
  match df !! key with
  | Some col => (Ok col, df)
  | None => (Raise (KeyError key), df)
  end.

(** [segments_df[key] = col], for a column that carries the index of the
    frame *)
Definition setitem {T} (key : string) (col : Series T) : Py T unit := fun df =>
  (Ok tt, <[key := col]> df).

Section Augmentation.
Context {T : Type} `{PyNum T}.

(** [determine_vg_grade] as [apply] calls it, on whatever the cell holds:
    ordering a string against the literal 30 is a [TypeError]. *)
Definition call_determine_vg_grade (mean_temp : Cell T) : result (Cell T) :=
  match mean_temp with
  | Num t => Ok (Str (determine_vg_grade t))
  | Str _ => Raise TypeError
  end.

(** [get_vg_grade_color] as [apply] calls it: a number is hashable and is
    not a key of [colors], so it gets the default. *)
Definition call_get_vg_grade_color (vg_grade : Cell T) : result (Cell T) :=
  match vg_grade with
  | Str s => Ok (Str (get_vg_grade_color s))
  | Num _ => Ok (Str "#7f7f7f")
  end.

(** What [visualize_highway_chainage] does to [segments_df] (the block
    "Add VG grades and assign colors"); the rest of the function only
    reads the frame. *)
Definition add_vg_grades_and_colors : Py T unit :=
  mean_temp ← getitem "mean_temp";
  vg_grade ← py_eval (series_apply call_determine_vg_grade mean_temp);
  setitem "vg_grade" vg_grade;;
  vg_grade ← getitem "vg_grade";
  color ← py_eval (series_apply call_get_vg_grade_color vg_grade);
  setitem "color" color.

(** The three ways the two statements can go: no temperature column, a
    cell the classifier cannot order, or both columns assigned. *)
Inductive augmented (df : DataFrame T) : result unit -> DataFrame T -> Prop :=
| augmented_no_column :
    df !! "mean_temp" = None ->
    augmented df (Raise (KeyError "mean_temp")) df
| augmented_bad_cell col e :
    df !! "mean_temp" = Some col ->
    series_apply call_determine_vg_grade col = Raise e ->
    augmented df (Raise e) df
| augmented_done col vg_grade color :
    df !! "mean_temp" = Some col ->
    series_apply call_determine_vg_grade col = Ok vg_grade ->
    series_apply call_get_vg_grade_color vg_grade = Ok color ->
    augmented df (Ok tt) (<["color" := color]> (<["vg_grade" := vg_grade]> df)).

End Augmentation.

(** ** The scenario table of the specification *)

Definition scenario_temps : list Q :=
  [25; 35; 40; 50; 45; 44.999]%Q.

Definition scenario_df : DataFrame Q :=
  {[ "mean_temp" := Num <$> scenario_temps ]}.

(** A table as the input contract describes it, with two segments. *)
Definition segments_example : DataFrame Q :=
  {[ "start_km" := [Num 0; Num 12.5]%Q;
     "end_km" := [Num 12.5; Num 30]%Q;
     "mean_temp" := [Num 45; Num 36.4]%Q ]}.

(** The same temperatures as binary64 values ([44.999] is the double
    nearest to it). *)
Definition scenario_floats : list spec_float :=
  [ float64_of_Z 25; float64_of_Z 35; float64_of_Z 40; float64_of_Z 50;
    float64_of_Z 45; S754_finite false 6333046238501405 (-47) ].

(** ** The order of the grades *)

(** The position of a label in [vg_grades]; anything else comes last. *)
Definition grade_rank (g : string) : nat :=
  if String.eqb g "VG-10" then 0
  else if String.eqb g "VG-20" then 1
  else if String.eqb g "VG-30" then 2
  else if String.eqb g "VG-40" then 3
  else if String.eqb g "VG-50" then 4
  else 5.

(** ** File names of a highway *)

(** [s.endswith(suffix)]: some tail of [s] is [suffix]. *)
Fixpoint str_endswith (s suffix : string) : bool :=
  String.eqb s suffix ||
  match s with
  | EmptyString => false
  | String _ s' => str_endswith s' suffix
  end.

(** [s.find(sub)], with [None] for -1. *)
Fixpoint str_find (sub s : string) : option nat :=
  if String.prefix sub s then Some 0
  else match s with
       | EmptyString => None
       | String _ s' => S <$> str_find sub s'
       end.

(** [s.replace(old, new)] for a non-empty [old]: the occurrences are
    found from the left and do not overlap; [skip] counts the characters
    of the occurrence being replaced that are still to be passed. *)
Fixpoint replace_scan (old new : string) (skip : nat) (s : string) : string :=
  match s with
  | EmptyString => EmptyString
  | String c s' =>
      match skip with
      | S k => replace_scan old new k s'
      | O =>
          if String.prefix old s
          then new +:+ replace_scan old new (String.length old - 1) s'
          else String c (replace_scan old new 0 s')
      end
  end.

(** With an empty [old], [new] goes before every character and at the end. *)
Fixpoint replace_empty (new s : string) : string :=
  match s with
  | EmptyString => new
  | String c s' => new +:+ String c (replace_empty new s')
  end.

Definition str_replace (s old new : string) : string :=
  match old with
  | EmptyString => replace_empty new s
  | String _ _ => replace_scan old new 0 s
  end.

Definition change_points_suffix : string := "_change_points_coordinates.csv".
Definition segments_suffix : string := "_segments_chainage.csv".

(** The list comprehension over [os.listdir(folder_path)]. *)
Definition change_point_files (listdir : list string) : list string :=
  List.filter (fun f => str_endswith f change_points_suffix) listdir.

(** The options of the select box. *)
Definition highway_options (listdir : list string) : list string :=
  (fun f => str_replace f change_points_suffix "") <$> change_point_files listdir.

Section Paths.
(** [os.path.join], whatever the platform makes of it. *)
Variable path_join : string -> string -> string.

Definition change_points_file (folder_path selected_highway : string) : string :=
  path_join folder_path (selected_highway +:+ change_points_suffix).

Definition segments_file (folder_path selected_highway : string) : string :=
  path_join folder_path (selected_highway +:+ segments_suffix).

End Paths.

(** ** Hover texts of the map *)

(** [[f'Change Point {i+1}' for i in range(n)]], [n] the number of
    change points. *)
Definition change_point_texts (n : nat) : list string :=
  (fun i : nat => "Change Point " +:+ pretty (i + 1)%nat) <$> seq 0 n.

(** ** The bars of the temperature chart *)

Record Bar (T : Type) : Type := {
  bar_x : list string;
  bar_y : list (Cell T);
  bar_text : Cell T;
  bar_hovertemplate : string;
  bar_marker_color : Cell T
}.
Arguments bar_x {T} b.
Arguments bar_hovertemplate {T} b.
Arguments bar_y {T} b.
Arguments bar_text {T} b.
Arguments bar_marker_color {T} b.

(** [row[key]] for the row with index label [i] that [iterrows] yields. *)
Definition row_getitem {T} (df : DataFrame T) (i : nat) (key : string) : result (Cell T) :=
  match df !! key with
  | Some col =>
      match col !! i with
      | Some x => Ok x
      | None => Raise (KeyError key)
      end
  | None => Raise (KeyError key)
  end.

Definition hovertemplate : string :=
  "<b>%{x}</b><br>Mean Temp: %{y:.2f}°C<br>VG Grade: %{text}<extra></extra>".

(** The [go.Bar] built for one row; its arguments are evaluated in the
    order they are written. *)
Definition segment_bar {T} (df : DataFrame T) (i : nat) : result (Bar T) :=
  let x := ["Segment " +:+ pretty (i + 1)%nat] in
  y ← row_getitem df i "mean_temp";
  text ← row_getitem df i "vg_grade";
  marker_color ← row_getitem df i "color";
  Ok {| bar_x := x; bar_y := [y]; bar_text := text;
        bar_hovertemplate := hovertemplate;
        bar_marker_color := marker_color |}.

(** The traces added by the loop over [segments_df.iterrows()], for a
    frame of [n] rows indexed from 0. *)
Definition temperature_bars {T} (n : nat) (df : DataFrame T) : result (list (Bar T)) :=
  series_apply (segment_bar df) (seq 0 n).

(** ** The columns shown in the segments table *)

(** [df[keys]] with a list of column names: the columns in [keys], and a
    [KeyError] when one of them is missing. *)
Fixpoint select_columns {T} (df : DataFrame T) (keys : list string) : result (DataFrame T) :=
  match keys with
  | [] => Ok ∅
  | key :: keys' =>
      match df !! key with
      | Some col => shown ← select_columns df keys'; Ok (<[key := col]> shown)
      | None => Raise (KeyError key)
      end
  end.

Definition shown_columns : list string :=
  ["start_km"; "end_km"; "mean_temp"; "vg_grade"].

(** ** The length metric *)

(** [max] of two numbers as [Series.max] folds it. *)
Definition Qmax_bool (x y : Q) : Q := if Qle_bool x y then y else x.

(** [col.max()] on a column of exact numbers; [None] stands for the
    not-a-number that an empty column gives. *)
Definition series_max (col : list Q) : option Q :=
  match col with
  | [] => None
  | x :: col' => Some (foldl Qmax_bool x col')
  end.

(** The figure shown as "Total Highway Length", before it is formatted:
    [segments_df['end_km'].max()]. *)
Definition total_highway_length (end_km : list Q) : option Q :=
  series_max end_km.

(** Segments that follow one another from position [x] on: each starts
    where the one before ended and does not end before it starts. *)
Fixpoint contiguous_from (x : Q) (start_km end_km : list Q) : Prop :=
  match start_km, end_km with
  | [], [] => True
  | s :: start_km', e :: end_km' =>
      (s == x)%Q /\ (s <= e)%Q /\ contiguous_from e start_km' end_km'
  | _, _ => False
  end.

(** The lengths of the segments, added up. *)
Fixpoint segment_lengths_sum (start_km end_km : list Q) : Q :=
  match start_km, end_km with
  | s :: start_km', e :: end_km' => ((e - s) + segment_lengths_sum start_km' end_km')%Q
  | _, _ => 0%Q
  end.

(** * Properties *)

(** ** Comparisons on exact numbers *)

Section ExactComparisons.
Local Open Scope Q_scope.

Lemma Q_py_lt_iff (x y : Q) : py_lt x y = true <-> x < y.
Proof.
  cbn. rewrite Qlt_alt. destruct (x ?= y); intuition congruence.
Qed.

Lemma Q_py_gt_iff (x y : Q) : py_gt x y = true <-> y < x.
Proof.
  cbn. change (y < x) with (x > y). rewrite Qgt_alt.
  destruct (x ?= y); intuition congruence.
Qed.

Lemma Qltb_iff (x y : Q) : Qltb x y = true <-> x < y.
Proof.
  unfold Qltb. rewrite negb_true_iff, <- not_true_iff_false, Qle_bool_iff.
  split; [apply Qnot_le_lt | apply Qlt_not_le].
Qed.

Lemma Q_py_lt_reflect (x y : Q) : reflect (x < y) (py_lt x y).
Proof. apply iff_reflect. symmetry. apply Q_py_lt_iff. Qed.

Lemma Q_py_gt_reflect (x y : Q) : reflect (y < x) (py_gt x y).
Proof. apply iff_reflect. symmetry. apply Q_py_gt_iff. Qed.

Lemma Qltb_reflect (x y : Q) : reflect (x < y) (Qltb x y).
Proof. apply iff_reflect. symmetry. apply Qltb_iff. Qed.

Lemma Qle_bool_reflect (x y : Q) : reflect (x <= y) (Qle_bool x y).
Proof. apply iff_reflect. symmetry. apply Qle_bool_iff. Qed.
End ExactComparisons.

(** Case analysis on every comparison of a goal about exact numbers. *)
Ltac compare_cases :=
  repeat match goal with
  | |- context [@py_lt Q _ ?x ?y] => destruct (Q_py_lt_reflect x y)
  | |- context [@py_gt Q _ ?x ?y] => destruct (Q_py_gt_reflect x y)
  | |- context [Qltb ?x ?y] => destruct (Qltb_reflect x y)
  | |- context [Qle_bool ?x ?y] => destruct (Qle_bool_reflect x y)
  end.

(** Expose the comparisons of the classifier at an exact number. *)
Ltac classifier_cases :=
  unfold determine_vg_grade; cbn [of_int Q_PyNum];
  change (inject_Z 30) with 30%Q; change (inject_Z 38) with 38%Q;
  change (inject_Z 45) with 45%Q;
  compare_cases.

(** ** The classifier on real temperatures *)

(** C1: on every (exact) temperature the classifier agrees with the
    decision policy of the specification, read as an ordered list of rules
    of which the first applicable one wins: VG-10 below 30, VG-20 on
    [30, 38), VG-30 on [38, 45), VG-40 above 45 and VG-50 otherwise. *)
Theorem determine_vg_grade_refines_policy :
  forall t : Q, determine_vg_grade t = classifier_reference t.
Proof.
  intros t. unfold classifier_reference, decision_policy. cbn [first_match].
  classifier_cases; cbn [andb]; try reflexivity; exfalso; lra.
Qed.

(** The four intervals of the policy, and where the catch-all applies. *)
Lemma determine_vg_grade_below_30 (t : Q) :
  (t < 30)%Q -> determine_vg_grade t = "VG-10".
Proof.
  intros Ht. classifier_cases; try reflexivity; exfalso; lra.
Qed.

Lemma determine_vg_grade_30_38 (t : Q) :
  (30 <= t)%Q -> (t < 38)%Q -> determine_vg_grade t = "VG-20".
Proof.
  intros Hlo Hhi. classifier_cases; try reflexivity; exfalso; lra.
Qed.

Lemma determine_vg_grade_38_45 (t : Q) :
  (38 <= t)%Q -> (t < 45)%Q -> determine_vg_grade t = "VG-30".
Proof.
  intros Hlo Hhi. classifier_cases; try reflexivity; exfalso; lra.
Qed.

Lemma determine_vg_grade_above_45 (t : Q) :
  (45 < t)%Q -> determine_vg_grade t = "VG-40".
Proof.
  intros Hlo. classifier_cases; try reflexivity; exfalso; lra.
Qed.

Lemma determine_vg_grade_VG50_iff (t : Q) :
  determine_vg_grade t = "VG-50" <-> (t == 45)%Q.
Proof.
  classifier_cases; split; intros Ht; try discriminate; try reflexivity; lra.
Qed.

(** C2: the boundary temperature 45 satisfies neither [t < 45] nor
    [t > 45] and is graded VG-50 by the catch-all branch, as an exact
    number and as the binary64 value 45.0. *)
Theorem determine_vg_grade_at_45 :
  py_lt 45%Q (of_int 45) = false /\
  py_gt 45%Q (of_int 45) = false /\
  determine_vg_grade 45%Q = "VG-50" /\
  determine_vg_grade (float64_of_Z 45) = "VG-50".
Proof. repeat split; vm_compute; reflexivity. Qed.

(** The branches of the classifier, one label each. *)
Lemma determine_vg_grade_cases {T} `{PyNum T} (t : T) :
  determine_vg_grade t = "VG-10" \/ determine_vg_grade t = "VG-20" \/
  determine_vg_grade t = "VG-30" \/ determine_vg_grade t = "VG-40" \/
  determine_vg_grade t = "VG-50".
Proof.
  unfold determine_vg_grade.
  destruct (py_lt t (of_int 30)); [tauto |].
  destruct (py_lt t (of_int 38)); [tauto |].
  destruct (py_lt t (of_int 45)); [tauto |].
  destruct (py_gt t (of_int 45)); tauto.
Qed.

(** C6: whatever the comparisons answer, the classifier returns one of
    the five labels; as a function without an error case it returns on
    every input. *)
Theorem determine_vg_grade_in_vg_grades :
  forall (T : Type) (N : PyNum T) (t : T), determine_vg_grade t ∈ vg_grades.
Proof.
  intros T N t. unfold determine_vg_grade, vg_grades.
  repeat match goal with
  | |- context [if ?b then _ else _] => destruct b
  end; set_solver.
Qed.

(** The labels are pairwise different, so the label returned is the only
    one. *)
Lemma vg_grades_NoDup : NoDup vg_grades.
Proof. apply (bool_decide_unpack _). vm_compute. exact I. Qed.

(** Not-a-number fails every comparison and ends in the catch-all; the
    infinities are graded like very low and very high temperatures. *)
Example determine_vg_grade_nan : determine_vg_grade S754_nan = "VG-50".
Proof. reflexivity. Qed.

Example determine_vg_grade_infinities :
  determine_vg_grade (S754_infinity true) = "VG-10" /\
  determine_vg_grade (S754_infinity false) = "VG-40".
Proof. split; reflexivity. Qed.

Example determine_vg_grade_scenario_floats :
  determine_vg_grade <$> scenario_floats =
  ["VG-10"; "VG-20"; "VG-30"; "VG-40"; "VG-50"; "VG-30"].
Proof. vm_compute. reflexivity. Qed.

(** ** The colorizer *)

Lemma colors_lookup_known :
  colors !! "VG-10" = Some "#1f77b4" /\
  colors !! "VG-20" = Some "#ff7f0e" /\
  colors !! "VG-30" = Some "#2ca02c" /\
  colors !! "VG-40" = Some "#d62728" /\
  colors !! "VG-50" = Some "#9467bd".
Proof. repeat split; vm_compute; reflexivity. Qed.

Lemma colors_lookup_other (s : string) :
  s ∉ vg_grades -> colors !! s = None.
Proof.
  unfold vg_grades. intros Hs.
  repeat (apply not_elem_of_cons in Hs as [? Hs]).
  unfold colors, dict_literal. cbn [foldl fst snd].
  rewrite !lookup_insert_ne by congruence. apply lookup_empty.
Qed.

(** C3: the five known labels get the colors of the table. *)
Theorem get_vg_grade_color_table :
  get_vg_grade_color "VG-10" = "#1f77b4" /\
  get_vg_grade_color "VG-20" = "#ff7f0e" /\
  get_vg_grade_color "VG-30" = "#2ca02c" /\
  get_vg_grade_color "VG-40" = "#d62728" /\
  get_vg_grade_color "VG-50" = "#9467bd".
Proof.
  unfold get_vg_grade_color, dict_get.
  destruct colors_lookup_known as (-> & -> & -> & -> & ->).
  repeat split.
Qed.

(** C4: a string that is none of the five labels gets the default gray;
    the lookup has no failing case. *)
Theorem get_vg_grade_color_unknown (s : string) :
  s ∉ vg_grades -> get_vg_grade_color s = "#7f7f7f".
Proof.
  intros Hs. unfold get_vg_grade_color, dict_get.
  rewrite colors_lookup_other by assumption. reflexivity.
Qed.

Lemma get_vg_grade_color_unknown_witness :
  ("unknown" ∉ vg_grades) /\ get_vg_grade_color "unknown" = "#7f7f7f".
Proof.
  assert (Hs : "unknown" ∉ vg_grades)
    by (apply (bool_decide_unpack _); vm_compute; exact I).
  split; [exact Hs | exact (get_vg_grade_color_unknown "unknown" Hs)].
Defined.

(** The colorizer answers with a table color exactly on the five labels. *)
Lemma get_vg_grade_color_known (s : string) :
  s ∈ vg_grades -> get_vg_grade_color s ∈ table_colors.
Proof.
  unfold vg_grades, table_colors. intros Hs.
  destruct get_vg_grade_color_table as (E1 & E2 & E3 & E4 & E5).
  repeat (apply elem_of_cons in Hs as [-> | Hs]);
    try (apply elem_of_nil in Hs; contradiction);
    first [rewrite E1 | rewrite E2 | rewrite E3 | rewrite E4 | rewrite E5];
    set_solver.
Qed.

Lemma gray_not_table_color : "#7f7f7f" ∉ table_colors.
Proof. apply (bool_decide_unpack _). vm_compute. exact I. Qed.

(** C9: the color of a grade the classifier returned is one of the five
    table colors and never the default gray. *)
Theorem color_of_grade_never_default :
  forall (T : Type) (N : PyNum T) (t : T),
    get_vg_grade_color (determine_vg_grade t) ∈ table_colors /\
    get_vg_grade_color (determine_vg_grade t) <> "#7f7f7f".
Proof.
  intros T N t.
  assert (Hg : determine_vg_grade t ∈ vg_grades)
    by (unfold vg_grades;
        destruct (determine_vg_grade_cases t) as [-> | [-> | [-> | [-> | ->]]]];
        set_solver).
  pose proof (get_vg_grade_color_known _ Hg) as Hc.
  split; [exact Hc |].
  intros E. rewrite E in Hc. exact (gray_not_table_color Hc).
Qed.

(** The labels have pairwise different keys: a variant of one label is
    not another label. *)
Lemma label_variant_known (k s : string) :
  k ∈ vg_grades -> s ∈ vg_grades -> label_variant k s -> s = k.
Proof.
  unfold vg_grades, label_variant. intros Hk Hs.
  repeat (apply elem_of_cons in Hk as [-> | Hk]);
    try (apply elem_of_nil in Hk; contradiction);
    repeat (apply elem_of_cons in Hs as [-> | Hs]);
    try (apply elem_of_nil in Hs; contradiction);
    vm_compute; intros E; first [reflexivity | discriminate E].
Qed.

(** C10: the lookup compares character for character: a string that
    reads as a known label once case, blanks and punctuation are ignored,
    but is not that label itself, gets the default gray. *)
Theorem get_vg_grade_color_exact_match (k s : string) :
  k ∈ vg_grades -> label_variant k s -> s <> k ->
  get_vg_grade_color s = "#7f7f7f".
Proof.
  intros Hk Hv Hne. unfold get_vg_grade_color, dict_get.
  rewrite colors_lookup_other; [reflexivity |].
  intros Hs. apply Hne. exact (label_variant_known k s Hk Hs Hv).
Qed.

Lemma get_vg_grade_color_exact_match_witness :
  get_vg_grade_color "vg-10" = "#7f7f7f" /\
  get_vg_grade_color "VG-10 " = "#7f7f7f" /\
  get_vg_grade_color "VG10" = "#7f7f7f".
Proof.
  assert (Hk : "VG-10" ∈ vg_grades) by (apply (bool_decide_unpack _); vm_compute; exact I).
  split; [| split].
  - apply (get_vg_grade_color_exact_match "VG-10" "vg-10" Hk); [reflexivity | discriminate].
  - apply (get_vg_grade_color_exact_match "VG-10" "VG-10 " Hk); [reflexivity | discriminate].
  - apply (get_vg_grade_color_exact_match "VG-10" "VG10" Hk); [reflexivity | discriminate].
Defined.

(** ** The augmentation of the segments table *)

(** [apply] returns one cell per cell of the column. *)
Lemma series_apply_length {A B} (func : A -> result B) (col : list A) (out : list B) :
  series_apply func col = Ok out -> length out = length col.
Proof.
  revert out. induction col as [| x col IH]; intros out.
  - cbn. intros [= <-]. reflexivity.
  - cbn [series_apply mbind result_bind].
    destruct (func x) as [y | e]; [| discriminate].
    destruct (series_apply func col) as [ys | e]; [| discriminate].
    intros [= <-]. cbn [length]. f_equal. apply IH. reflexivity.
Qed.

(** Unfold the statements of the augmentation down to the lookups. *)
Ltac run_statements :=
  unfold add_vg_grades_and_colors, getitem, setitem, py_eval, mbind, Py_bind;
  cbn beta iota.

Section AugmentationProperties.
Context {T : Type} `{PyNum T}.
Implicit Types (df out : DataFrame T) (temps : list T) (col : Series T).

Lemma series_apply_determine_vg_grade temps :
  series_apply call_determine_vg_grade (Num <$> temps)
  = Ok (Str <$> (determine_vg_grade <$> temps)).
Proof.
  induction temps as [| t temps IH]; [reflexivity |].
  cbn [fmap list_fmap series_apply call_determine_vg_grade mbind result_bind].
  change (list_fmap _ _ ?f ?l) with (f <$> l) in *.
  rewrite IH. reflexivity.
Qed.

Lemma series_apply_get_vg_grade_color (grades : list string) :
  series_apply (call_get_vg_grade_color (T := T)) (Str <$> grades)
  = Ok (Str <$> (get_vg_grade_color <$> grades)).
Proof.
  induction grades as [| g grades IH]; [reflexivity |].
  cbn [fmap list_fmap series_apply call_get_vg_grade_color mbind result_bind].
  change (list_fmap _ _ ?f ?l) with (f <$> l) in *.
  rewrite IH. reflexivity.
Qed.

(** The colorizer never raises, whatever the column holds. *)
Lemma series_apply_get_vg_grade_color_total col :
  exists color : Series T, series_apply call_get_vg_grade_color col = Ok color.
Proof.
  induction col as [| c col [color IH]]; [eexists; reflexivity |].
  cbn [series_apply mbind result_bind]. rewrite IH.
  destruct c; eexists; reflexivity.
Qed.

(** Every run is one of the three. *)
Lemma add_vg_grades_and_colors_augmented df :
  augmented df (add_vg_grades_and_colors df).1 (add_vg_grades_and_colors df).2.
Proof.
  run_statements.
  destruct (df !! "mean_temp") as [col |] eqn:Hcol;
    [| cbn [fst snd]; apply augmented_no_column; exact Hcol].
  cbn beta iota.
  destruct (series_apply call_determine_vg_grade col) as [vg_grade | e] eqn:Hg;
    [| cbn [fst snd]; eapply augmented_bad_cell; eassumption].
  rewrite lookup_insert_eq.
  destruct (series_apply_get_vg_grade_color_total vg_grade) as [color Hc].
  rewrite Hc. cbn [fst snd]. eapply augmented_done; eassumption.
Qed.

(** On a numeric temperature column the two assignments succeed, and the
    new columns are the classifier and the colorizer mapped over it. *)
Lemma add_vg_grades_and_colors_numeric df temps :
  df !! "mean_temp" = Some (Num <$> temps) ->
  add_vg_grades_and_colors df =
  (Ok tt,
   <["color" := Str <$> (get_vg_grade_color <$> (determine_vg_grade <$> temps))]>
     (<["vg_grade" := Str <$> (determine_vg_grade <$> temps)]> df)).
Proof.
  intros Hmt. run_statements. rewrite Hmt.
  rewrite series_apply_determine_vg_grade.
  rewrite lookup_insert_eq.
  rewrite series_apply_get_vg_grade_color. reflexivity.
Qed.

(** Without a temperature column the first subscript raises, and a string
    in the temperature column makes the classifier raise; the frame is
    then the one that was passed in. *)
Lemma add_vg_grades_and_colors_KeyError df :
  df !! "mean_temp" = None ->
  add_vg_grades_and_colors df = (Raise (KeyError "mean_temp"), df).
Proof.
  intros Hmt. run_statements. rewrite Hmt. reflexivity.
Qed.

Example add_vg_grades_and_colors_TypeError df (s : string) :
  add_vg_grades_and_colors (<["mean_temp" := [Str s]]> df)
  = (Raise TypeError, <["mean_temp" := [Str s]]> df).
Proof.
  run_statements. rewrite lookup_insert_eq. reflexivity.
Qed.

(** Reading row [i] of the two new columns. *)
Lemma cell_at_vg_grade df (vg_grade color : Series T) (i : nat) :
  cell_at (<["color" := color]> (<["vg_grade" := vg_grade]> df)) "vg_grade" i
  = vg_grade !! i.
Proof.
  unfold cell_at.
  rewrite (lookup_insert_ne _ "color" "vg_grade") by discriminate.
  rewrite lookup_insert_eq. reflexivity.
Qed.

Lemma cell_at_color df (vg_grade color : Series T) (i : nat) :
  cell_at (<["color" := color]> (<["vg_grade" := vg_grade]> df)) "color" i
  = color !! i.
Proof. unfold cell_at. rewrite lookup_insert_eq. reflexivity. Qed.

(** Two tables whose temperature columns agree in row [i] get the same
    grade and the same color in row [i]. *)
Lemma augmentation_row_agree df df' temps temps' out out' (i : nat) :
  df !! "mean_temp" = Some (Num <$> temps) ->
  df' !! "mean_temp" = Some (Num <$> temps') ->
  temps !! i = temps' !! i ->
  add_vg_grades_and_colors df = (Ok tt, out) ->
  add_vg_grades_and_colors df' = (Ok tt, out') ->
  cell_at out' "vg_grade" i = cell_at out "vg_grade" i /\
  cell_at out' "color" i = cell_at out "color" i.
Proof.
  intros Hdf Hdf' Hi Hout Hout'.
  rewrite (add_vg_grades_and_colors_numeric df temps Hdf) in Hout.
  rewrite (add_vg_grades_and_colors_numeric df' temps' Hdf') in Hout'.
  injection Hout as <-. injection Hout' as <-.
  rewrite !cell_at_vg_grade, !cell_at_color, !list_lookup_fmap, Hi.
  split; reflexivity.
Qed.

End AugmentationProperties.

(** C5: the scenario table.  Run on a table whose temperature column is
    25, 35, 40, 50, 45, 44.999, the augmentation ends normally with the
    grade and color columns as listed, and so does the classifier followed
    by the colorizer on each temperature. *)
Theorem scenario_table :
  (let (r, out) := add_vg_grades_and_colors scenario_df in
   (r, out !! "vg_grade", out !! "color"))
  = (Ok tt,
     Some (Str <$> ["VG-10"; "VG-20"; "VG-30"; "VG-40"; "VG-50"; "VG-30"]),
     Some (Str <$> ["#1f77b4"; "#ff7f0e"; "#2ca02c"; "#d62728"; "#9467bd"; "#2ca02c"]))
  /\ (fun t : Q => (determine_vg_grade t, get_vg_grade_color (determine_vg_grade t)))
       <$> scenario_temps
     = [ ("VG-10", "#1f77b4"); ("VG-20", "#ff7f0e"); ("VG-30", "#2ca02c");
         ("VG-40", "#d62728"); ("VG-50", "#9467bd"); ("VG-30", "#2ca02c") ].
Proof. split; vm_compute; reflexivity. Qed.

Example scenario_table_floats :
  (fun t : spec_float => (determine_vg_grade t, get_vg_grade_color (determine_vg_grade t)))
    <$> scenario_floats
  = [ ("VG-10", "#1f77b4"); ("VG-20", "#ff7f0e"); ("VG-30", "#2ca02c");
      ("VG-40", "#d62728"); ("VG-50", "#9467bd"); ("VG-30", "#2ca02c") ].
Proof. vm_compute. reflexivity. Qed.

Section RowsAndColumns.
Context {T : Type} `{PyNum T}.
Implicit Types (df out : DataFrame T) (temps : list T).

(** C7: per-row independence.  On a table with a numeric temperature
    column, replacing the temperature of another row [j] leaves the grade
    and the color of row [i] as they were; the grade column is the
    classifier and the color column the colorizer applied cell by cell, so
    the cells of row [i] are computed from the temperature of row [i]. *)
Theorem classification_row_independent df temps (i j : nat) (v : T) :
  df !! "mean_temp" = Some (Num <$> temps) ->
  i <> j ->
  exists out out' : DataFrame T,
    add_vg_grades_and_colors df = (Ok tt, out) /\
    add_vg_grades_and_colors (<["mean_temp" := Num <$> <[j := v]> temps]> df)
      = (Ok tt, out') /\
    cell_at out' "vg_grade" i = cell_at out "vg_grade" i /\
    cell_at out' "color" i = cell_at out "color" i /\
    out !! "vg_grade" = Some (Str <$> (determine_vg_grade <$> temps)) /\
    out !! "color" = Some (Str <$> (get_vg_grade_color <$> (determine_vg_grade <$> temps))) /\
    cell_at out "vg_grade" i = (fun t => Str (determine_vg_grade t)) <$> temps !! i /\
    cell_at out "color" i
      = (fun t => Str (get_vg_grade_color (determine_vg_grade t))) <$> temps !! i.
Proof.
  intros Hdf Hij.
  set (df' := <["mean_temp" := Num <$> <[j := v]> temps]> df).
  assert (Hdf' : df' !! "mean_temp" = Some (Num <$> <[j := v]> temps))
    by apply lookup_insert_eq.
  pose proof (add_vg_grades_and_colors_numeric df temps Hdf) as Hout.
  pose proof (add_vg_grades_and_colors_numeric df' _ Hdf') as Hout'.
  eexists. eexists.
  split; [exact Hout |]. split; [exact Hout' |].
  assert (Hi : temps !! i = <[j := v]> temps !! i)
    by (symmetry; apply list_lookup_insert_ne; congruence).
  destruct (augmentation_row_agree df df' temps _ _ _ i Hdf Hdf' Hi Hout Hout')
    as [Hg Hc].
  split; [exact Hg |]. split; [exact Hc |].
  rewrite cell_at_vg_grade, cell_at_color, !list_lookup_fmap.
  rewrite lookup_insert_eq.
  rewrite (lookup_insert_ne _ "color" "vg_grade") by discriminate.
  rewrite lookup_insert_eq.
  repeat split; destruct (temps !! i); reflexivity.
Qed.

(** C8: the frame condition.  Whatever the table, the two statements
    leave every column other than [vg_grade] and [color] (so [start_km],
    [end_km] and [mean_temp]) the column it was, and every column, old or
    new, has the number of rows the table had.  When they end normally the
    column names are the old ones and the two new ones; when they raise
    the table is untouched; and on a numeric temperature column they end
    normally. *)
Theorem augmentation_frame df (n : nat) :
  frame_rows n df ->
  exists (r : result unit) (out : DataFrame T),
    add_vg_grades_and_colors df = (r, out) /\
    (forall c : string, c <> "vg_grade" -> c <> "color" -> out !! c = df !! c) /\
    out !! "start_km" = df !! "start_km" /\
    out !! "end_km" = df !! "end_km" /\
    out !! "mean_temp" = df !! "mean_temp" /\
    frame_rows n out /\
    (r = Ok tt -> dom out = dom df ∪ {[ "vg_grade"; "color" ]}) /\
    (forall e : PyExc, r = Raise e -> out = df) /\
    (forall temps, df !! "mean_temp" = Some (Num <$> temps) -> r = Ok tt).
Proof.
  intros Hrows.
  pose proof (add_vg_grades_and_colors_augmented df) as Haug.
  destruct (add_vg_grades_and_colors df) as [r out] eqn:Hrun.
  cbn [fst snd] in Haug.
  exists r, out. split; [reflexivity |].
  assert (Hnum : forall temps, df !! "mean_temp" = Some (Num <$> temps) -> r = Ok tt).
  { intros temps Hdf.
    rewrite (add_vg_grades_and_colors_numeric df temps Hdf) in Hrun.
    congruence. }
  destruct Haug as [Hnone | col e Hcol Hg | col vg_grade color Hcol Hg Hc].
  - repeat split; try reflexivity; try assumption; discriminate.
  - repeat split; try reflexivity; try assumption; discriminate.
  - assert (Hother : forall c : string, c <> "vg_grade" -> c <> "color" ->
              <["color" := color]> (<["vg_grade" := vg_grade]> df) !! c = df !! c).
    { intros c Hcg Hcc. rewrite !lookup_insert_ne by congruence. reflexivity. }
    assert (Hn : length col = n) by exact (Hrows "mean_temp" col Hcol).
    pose proof (series_apply_length _ _ _ Hg) as Hlg.
    pose proof (series_apply_length _ _ _ Hc) as Hlc.
    split; [exact Hother |].
    split; [apply Hother; discriminate |].
    split; [apply Hother; discriminate |].
    split; [apply Hother; discriminate |].
    split; [| split; [| split]].
    + unfold frame_rows. apply map_Forall_insert_2; [| apply map_Forall_insert_2].
      * congruence.
      * congruence.
      * exact Hrows.
    + intros _. rewrite !dom_insert_L. apply set_eq. intros c.
      rewrite !elem_of_union. tauto.
    + discriminate.
    + exact Hnum.
Qed.

End RowsAndColumns.

Lemma classification_row_independent_witness :
  exists out out' : DataFrame Q,
    add_vg_grades_and_colors scenario_df = (Ok tt, out) /\
    add_vg_grades_and_colors
      (<["mean_temp" := Num <$> <[1%nat := 50%Q]> scenario_temps]> scenario_df)
      = (Ok tt, out') /\
    cell_at out' "vg_grade" 0 = cell_at out "vg_grade" 0 /\
    cell_at out' "color" 0 = cell_at out "color" 0 /\
    out !! "vg_grade" = Some (Str <$> (determine_vg_grade <$> scenario_temps)) /\
    out !! "color"
      = Some (Str <$> (get_vg_grade_color <$> (determine_vg_grade <$> scenario_temps))) /\
    cell_at out "vg_grade" 0
      = (fun t => Str (determine_vg_grade t)) <$> scenario_temps !! 0%nat /\
    cell_at out "color" 0
      = (fun t => Str (get_vg_grade_color (determine_vg_grade t))) <$> scenario_temps !! 0%nat.
Proof.
  apply (classification_row_independent scenario_df scenario_temps 0 1 50%Q).
  - vm_compute. reflexivity.
  - lia.
Defined.

Lemma augmentation_frame_witness :
  frame_rows 2 segments_example /\
  exists (r : result unit) (out : DataFrame Q),
    add_vg_grades_and_colors segments_example = (r, out) /\
    (forall c : string, c <> "vg_grade" -> c <> "color" -> out !! c = segments_example !! c) /\
    out !! "start_km" = segments_example !! "start_km" /\
    out !! "end_km" = segments_example !! "end_km" /\
    out !! "mean_temp" = segments_example !! "mean_temp" /\
    frame_rows 2 out /\
    (r = Ok tt -> dom out = dom segments_example ∪ {[ "vg_grade"; "color" ]}) /\
    (forall e : PyExc, r = Raise e -> out = segments_example) /\
    (forall temps, segments_example !! "mean_temp" = Some (Num <$> temps) -> r = Ok tt).
Proof.
  assert (Hrows : frame_rows 2 segments_example)
    by (apply (bool_decide_unpack _); vm_compute; exact I).
  split; [exact Hrows |].
  exact (augmentation_frame segments_example 2 Hrows).
Defined.

(** * Further properties of the code *)

(** ** The bands of the classifier *)

(** X1: on exact temperatures each grade is returned on its band and
    nowhere else: VG-10 exactly below 30, VG-20 exactly on [30, 38), VG-30
    exactly on [38, 45), VG-40 exactly above 45, VG-50 exactly at 45. *)
Theorem determine_vg_grade_bands (t : Q) :
  (determine_vg_grade t = "VG-10" <-> (t < 30)%Q) /\
  (determine_vg_grade t = "VG-20" <-> (30 <= t)%Q /\ (t < 38)%Q) /\
  (determine_vg_grade t = "VG-30" <-> (38 <= t)%Q /\ (t < 45)%Q) /\
  (determine_vg_grade t = "VG-40" <-> (45 < t)%Q) /\
  (determine_vg_grade t = "VG-50" <-> (t == 45)%Q).
Proof.
  classifier_cases; repeat split; intros; try discriminate; try reflexivity; lra.
Qed.

(** X2: away from 45 a warmer segment never gets a lower grade: when
    [t1 <= t2] and [t1] is not 45, the grade of [t1] comes no later in
    [vg_grades] than the grade of [t2]. *)
Theorem determine_vg_grade_monotone_off_45 (t1 t2 : Q) :
  (t1 <= t2)%Q -> ~ (t1 == 45)%Q ->
  grade_rank (determine_vg_grade t1) <= grade_rank (determine_vg_grade t2).
Proof.
  intros Hle Hne.
  classifier_cases; first [exfalso; lra | vm_compute; lia].
Qed.

Lemma determine_vg_grade_monotone_off_45_witness :
  grade_rank (determine_vg_grade 37.5%Q) <= grade_rank (determine_vg_grade 45%Q).
Proof.
  apply (determine_vg_grade_monotone_off_45 37.5%Q 45%Q).
  - vm_compute. discriminate.
  - vm_compute. discriminate.
Defined.

(** At 45 itself the order breaks: 45 is graded VG-50, anything above it
    VG-40. *)
Example determine_vg_grade_drops_after_45 :
  grade_rank (determine_vg_grade 45%Q) = 4 /\
  grade_rank (determine_vg_grade 45.001%Q) = 3.
Proof. split; vm_compute; reflexivity. Qed.

(** ** The catch-all on binary64 cells *)

Lemma float64_of_Z_45 :
  float64_of_Z 45 = S754_finite false 6333186975989760 (-47).
Proof. vm_compute. reflexivity. Qed.

(** Two positive finite floats neither of which is below the other have
    the same mantissa and exponent. *)
Lemma SFltb_neither_finite (m1 m2 : positive) (e1 e2 : Z) :
  SFltb (S754_finite false m1 e1) (S754_finite false m2 e2) = false ->
  SFltb (S754_finite false m2 e2) (S754_finite false m1 e1) = false ->
  m1 = m2 /\ e1 = e2.
Proof.
  unfold SFltb, SFcompare.
  rewrite (Z.compare_antisym e1 e2).
  destruct (Z.compare_spec e1 e2) as [-> | He | He]; cbn [CompOpp];
    try discriminate.
  change (PosDef.Pos.compare_cont Eq m1 m2) with (Pos.compare m1 m2).
  change (PosDef.Pos.compare_cont Eq m2 m1) with (Pos.compare m2 m1).
  rewrite (Pos.compare_antisym m1 m2).
  destruct (Pos.compare_spec m1 m2) as [-> | Hm | Hm]; cbn [CompOpp];
    try discriminate.
  intros _ _. split; reflexivity.
Qed.

(** A float that is neither below nor above 45.0 is 45.0 or not a number. *)
Lemma float64_not_lt_not_gt_45 (f : spec_float) :
  SFltb f (float64_of_Z 45) = false ->
  SFltb (float64_of_Z 45) f = false ->
  f = S754_nan \/ f = float64_of_Z 45.
Proof.
  rewrite float64_of_Z_45.
  destruct f as [s | s | | s m e].
  - discriminate.
  - destruct s; discriminate.
  - intros _ _. left. reflexivity.
  - destruct s; [discriminate |].
    intros Hlt Hgt. right.
    destruct (SFltb_neither_finite _ _ _ _ Hlt Hgt) as [-> ->]. reflexivity.
Qed.

(** X3: on binary64 temperatures the catch-all grade VG-50 is returned
    for 45.0 and for not-a-number (a missing temperature), and for no
    other value. *)
Theorem determine_vg_grade_float64_VG50_iff (f : spec_float) :
  determine_vg_grade f = "VG-50" <-> f = S754_nan \/ f = float64_of_Z 45.
Proof.
  split.
  - unfold determine_vg_grade. cbn [py_lt py_gt of_int float64_PyNum].
    destruct (SFltb f (float64_of_Z 30)); [discriminate |].
    destruct (SFltb f (float64_of_Z 38)); [discriminate |].
    destruct (SFltb f (float64_of_Z 45)) eqn:Hlt; [discriminate |].
    destruct (SFltb (float64_of_Z 45) f) eqn:Hgt; [discriminate |].
    intros _. apply float64_not_lt_not_gt_45; assumption.
  - intros [-> | ->]; vm_compute; reflexivity.
Qed.

(** ** Colors and grades *)

(** X4: a table color identifies its grade: a string that gets the color
    of one of the five labels is that label.  Different grades are never
    drawn in the same color, and nothing else is drawn in a grade's
    color. *)
Theorem get_vg_grade_color_identifies_grade (g s : string) :
  g ∈ vg_grades -> get_vg_grade_color s = get_vg_grade_color g -> s = g.
Proof.
  intros Hg Hc.
  destruct (decide (s ∈ vg_grades)) as [Hs | Hs].
  - revert Hc. unfold vg_grades in Hg, Hs.
    repeat (apply elem_of_cons in Hg as [-> | Hg]);
      try (apply elem_of_nil in Hg; contradiction);
      repeat (apply elem_of_cons in Hs as [-> | Hs]);
      try (apply elem_of_nil in Hs; contradiction);
      vm_compute; intros E; first [reflexivity | discriminate E].
  - exfalso. revert Hc. unfold get_vg_grade_color at 1, dict_get.
    rewrite (colors_lookup_other s Hs). cbn [default].
    unfold vg_grades in Hg.
    repeat (apply elem_of_cons in Hg as [-> | Hg]);
      try (apply elem_of_nil in Hg; contradiction);
      vm_compute; discriminate.
Qed.

Lemma get_vg_grade_color_identifies_grade_witness :
  ("VG-30" ∈ vg_grades) /\
  (get_vg_grade_color (determine_vg_grade 40%Q) = get_vg_grade_color "VG-30" ->
   determine_vg_grade 40%Q = "VG-30").
Proof.
  assert (Hg : "VG-30" ∈ vg_grades)
    by (apply (bool_decide_unpack _); vm_compute; exact I).
  split; [exact Hg |].
  exact (get_vg_grade_color_identifies_grade "VG-30" (determine_vg_grade 40%Q) Hg).
Defined.

(** ** Outcomes of the augmentation *)

Section AugmentationOutcomes.
Context {T : Type} `{PyNum T}.
Implicit Types (df out : DataFrame T) (col : Series T).

Lemma add_vg_grades_and_colors_done df col (vg_grade color : Series T) :
  df !! "mean_temp" = Some col ->
  series_apply call_determine_vg_grade col = Ok vg_grade ->
  series_apply call_get_vg_grade_color vg_grade = Ok color ->
  add_vg_grades_and_colors df
  = (Ok tt, <["color" := color]> (<["vg_grade" := vg_grade]> df)).
Proof.
  intros Hcol Hg Hc. run_statements. rewrite Hcol.
  cbn beta iota. rewrite Hg. rewrite lookup_insert_eq. rewrite Hc. reflexivity.
Qed.

Lemma add_vg_grades_and_colors_raised df col (e : PyExc) :
  df !! "mean_temp" = Some col ->
  series_apply call_determine_vg_grade col = Raise e ->
  add_vg_grades_and_colors df = (Raise e, df).
Proof.
  intros Hcol Hg. run_statements. rewrite Hcol.
  cbn beta iota. rewrite Hg. reflexivity.
Qed.

(** The classifier raises on a column exactly when it holds a string, and
    then with a [TypeError]. *)
Lemma series_apply_determine_vg_grade_Str col (s : string) :
  Str s ∈ col -> series_apply call_determine_vg_grade col = Raise TypeError.
Proof.
  induction col as [| c col IH]; intros Hin.
  - apply elem_of_nil in Hin. contradiction.
  - cbn [series_apply mbind result_bind].
    destruct c as [t | s']; [| reflexivity].
    apply elem_of_cons in Hin as [Heq | Hin]; [discriminate |].
    cbn [call_determine_vg_grade]. rewrite (IH Hin). reflexivity.
Qed.

Lemma series_apply_determine_vg_grade_Raise col (e : PyExc) :
  series_apply call_determine_vg_grade col = Raise e ->
  e = TypeError /\ exists s : string, Str s ∈ col.
Proof.
  induction col as [| c col IH]; [discriminate |].
  cbn [series_apply mbind result_bind].
  destruct c as [t | s].
  - cbn [call_determine_vg_grade].
    destruct (series_apply call_determine_vg_grade col) as [ys | e'];
      [discriminate |].
    intros [= <-]. destruct (IH eq_refl) as [-> [s Hs]].
    split; [reflexivity |]. exists s. apply elem_of_cons. right. exact Hs.
  - cbn [call_determine_vg_grade]. intros [= <-].
    split; [reflexivity |]. exists s. apply elem_of_cons. left. reflexivity.
Qed.

(** X5: the augmentation is idempotent: run on the table it left behind,
    it ends the same way and leaves the same table, whether the first run
    assigned the two columns or raised. *)
Theorem add_vg_grades_and_colors_idempotent df :
  add_vg_grades_and_colors (add_vg_grades_and_colors df).2
  = add_vg_grades_and_colors df.
Proof.
  pose proof (add_vg_grades_and_colors_augmented df) as Haug.
  destruct (add_vg_grades_and_colors df) as [r out] eqn:Hrun.
  cbn [fst snd] in *.
  destruct Haug as [Hnone | col e Hcol Hg | col vg_grade color Hcol Hg Hc].
  - exact Hrun.
  - exact Hrun.
  - rewrite (add_vg_grades_and_colors_done _ col vg_grade color); [| | exact Hg | exact Hc].
    + f_equal. apply map_eq. intros k. rewrite !lookup_insert.
      repeat case_decide; congruence.
    + rewrite !lookup_insert_ne by discriminate. exact Hcol.
Qed.

(** X6: columns named [vg_grade] or [color] that the table already had
    are overwritten: when the augmentation ends normally, it leaves the
    same table whatever such columns held before. *)
Theorem add_vg_grades_and_colors_overwrites df out (stale_grade stale_color : Series T) :
  add_vg_grades_and_colors df = (Ok tt, out) ->
  add_vg_grades_and_colors
    (<["vg_grade" := stale_grade]> (<["color" := stale_color]> df))
  = (Ok tt, out).
Proof.
  intros Hrun.
  pose proof (add_vg_grades_and_colors_augmented df) as Haug.
  rewrite Hrun in Haug. cbn [fst snd] in Haug.
  inversion Haug as [| | col vg_grade color Hcol Hg Hc Hr Hout]; subst.
  rewrite (add_vg_grades_and_colors_done _ col vg_grade color); [| | exact Hg | exact Hc].
  - f_equal. apply map_eq. intros k. rewrite !lookup_insert.
    repeat case_decide; congruence.
  - rewrite !lookup_insert_ne by discriminate. exact Hcol.
Qed.

(** X7: a string anywhere in the temperature column makes the
    augmentation raise [TypeError] before anything is assigned: the table
    is left as it was, without grades for the rows before the string. *)
Theorem add_vg_grades_and_colors_raises_on_string df col (s : string) :
  df !! "mean_temp" = Some col ->
  Str s ∈ col ->
  add_vg_grades_and_colors df = (Raise TypeError, df).
Proof.
  intros Hcol Hin.
  apply (add_vg_grades_and_colors_raised df col TypeError Hcol).
  exact (series_apply_determine_vg_grade_Str col s Hin).
Qed.

(** X8: the exceptions of the augmentation.  It raises [KeyError] exactly
    when the table has no [mean_temp] column, and then for that key (the
    subscript [vg_grade] never fails); it raises [TypeError] exactly when
    the [mean_temp] column holds a string; nothing else is raised. *)
Theorem add_vg_grades_and_colors_exceptions df (e : PyExc) :
  (add_vg_grades_and_colors df).1 = Raise e <->
  (e = KeyError "mean_temp" /\ df !! "mean_temp" = None) \/
  (e = TypeError /\
   exists col (s : string), df !! "mean_temp" = Some col /\ Str s ∈ col).
Proof.
  split.
  - pose proof (add_vg_grades_and_colors_augmented df) as Haug.
    destruct (add_vg_grades_and_colors df) as [r out]. cbn [fst snd] in *.
    intros ->.
    inversion Haug as [Hnone | col e' Hcol Hg |]; subst.
    + left. split; [reflexivity | exact Hnone].
    + right. destruct (series_apply_determine_vg_grade_Raise col e Hg) as [-> [s Hs]].
      split; [reflexivity |]. exists col, s. split; assumption.
  - intros [[-> Hnone] | [-> (col & s & Hcol & Hs)]].
    + rewrite (add_vg_grades_and_colors_KeyError df Hnone). reflexivity.
    + rewrite (add_vg_grades_and_colors_raised df col TypeError Hcol
                 (series_apply_determine_vg_grade_Str col s Hs)).
      reflexivity.
Qed.

End AugmentationOutcomes.

Lemma add_vg_grades_and_colors_overwrites_witness :
  add_vg_grades_and_colors
    (<["vg_grade" := [Str "VG-10"; Num 7%Q]]> (<["color" := []]> segments_example))
  = add_vg_grades_and_colors segments_example.
Proof.
  assert (Hrun : add_vg_grades_and_colors segments_example
                 = (Ok tt, (add_vg_grades_and_colors segments_example).2))
    by (vm_compute; reflexivity).
  exact (eq_trans
           (add_vg_grades_and_colors_overwrites segments_example _
              [Str "VG-10"; Num 7%Q] [] Hrun)
           (eq_sym Hrun)).
Defined.

Lemma add_vg_grades_and_colors_raises_on_string_witness :
  add_vg_grades_and_colors
    (<["mean_temp" := [Num 25%Q; Str "n/a"; Num 45%Q]]> segments_example)
  = (Raise TypeError,
     <["mean_temp" := [Num 25%Q; Str "n/a"; Num 45%Q]]> segments_example).
Proof.
  apply (add_vg_grades_and_colors_raises_on_string
           (<["mean_temp" := [Num 25%Q; Str "n/a"; Num 45%Q]]> segments_example)
           [Num 25%Q; Str "n/a"; Num 45%Q] "n/a").
  - vm_compute. reflexivity.
  - apply elem_of_cons. right. apply elem_of_cons. left. reflexivity.
Defined.

(** X9: a missing temperature is graded silently.  In a [float64]
    temperature column a not-a-number cell does not stop the augmentation;
    its row gets the grade VG-50 and the color of VG-50. *)
Theorem nan_row_graded_VG50 (df : DataFrame spec_float) (temps : list spec_float) (i : nat) :
  df !! "mean_temp" = Some (Num <$> temps) ->
  temps !! i = Some S754_nan ->
  exists out : DataFrame spec_float,
    add_vg_grades_and_colors df = (Ok tt, out) /\
    cell_at out "vg_grade" i = Some (Str "VG-50") /\
    cell_at out "color" i = Some (Str "#9467bd").
Proof.
  intros Hdf Hi. eexists.
  split; [exact (add_vg_grades_and_colors_numeric df temps Hdf) |].
  rewrite cell_at_vg_grade, cell_at_color, !list_lookup_fmap, Hi.
  split; vm_compute; reflexivity.
Qed.

Lemma nan_row_graded_VG50_witness :
  exists out : DataFrame spec_float,
    add_vg_grades_and_colors
      ({[ "mean_temp" := [Num (float64_of_Z 31); Num S754_nan] ]} : DataFrame spec_float)
    = (Ok tt, out) /\
    cell_at out "vg_grade" 1 = Some (Str "VG-50") /\
    cell_at out "color" 1 = Some (Str "#9467bd").
Proof.
  apply (nan_row_graded_VG50 _ [float64_of_Z 31; S754_nan] 1).
  - vm_compute. reflexivity.
  - reflexivity.
Defined.

(** ** Strings *)

Lemma str_app_cons (c : ascii) (s t : string) :
  String c s +:+ t = String c (s +:+ t).
Proof. reflexivity. Qed.

Lemma str_app_nil_l (t : string) : "" +:+ t = t.
Proof. reflexivity. Qed.

Lemma str_app_nil_r (s : string) : s +:+ "" = s.
Proof.
  induction s as [| c s IH]; [reflexivity |].
  rewrite str_app_cons, IH. reflexivity.
Qed.

Lemma str_app_assoc (s1 s2 s3 : string) : (s1 +:+ s2) +:+ s3 = s1 +:+ s2 +:+ s3.
Proof.
  induction s1 as [| c s1 IH]; [reflexivity |].
  rewrite !str_app_cons, IH. reflexivity.
Qed.

Lemma str_length_app (s1 s2 : string) :
  String.length (s1 +:+ s2) = (String.length s1 + String.length s2)%nat.
Proof.
  induction s1 as [| c s1 IH]; [reflexivity |].
  rewrite str_app_cons. cbn [String.length Nat.add]. rewrite IH. reflexivity.
Qed.

Lemma str_length_0 (s : string) : String.length s = 0%nat -> s = "".
Proof. destruct s; [reflexivity | discriminate]. Qed.

Lemma str_prefix_app (s post : string) : String.prefix s (s +:+ post) = true.
Proof.
  induction s as [| c s IH]; [destruct post; reflexivity |].
  rewrite str_app_cons. cbn [String.prefix].
  destruct (ascii_dec c c); [exact IH | contradiction].
Qed.

Lemma str_prefix_split (s1 s2 : string) :
  String.prefix s1 s2 = true -> exists post, s2 = s1 +:+ post.
Proof.
  revert s2. induction s1 as [| c s1 IH]; intros s2.
  - intros _. exists s2. reflexivity.
  - destruct s2 as [| c2 s2]; [discriminate |].
    cbn [String.prefix]. destruct (ascii_dec c c2) as [-> |]; [| discriminate].
    intros Hp. destruct (IH _ Hp) as [post ->]. exists post. reflexivity.
Qed.

Lemma str_endswith_app (stem suffix : string) :
  str_endswith (stem +:+ suffix) suffix = true.
Proof.
  induction stem as [| c stem IH].
  - rewrite str_app_nil_l.
    destruct suffix; cbn [str_endswith]; rewrite String.eqb_refl; reflexivity.
  - rewrite str_app_cons. cbn [str_endswith]. rewrite IH. apply orb_true_r.
Qed.

Lemma str_endswith_split (s suffix : string) :
  str_endswith s suffix = true -> exists stem, s = stem +:+ suffix.
Proof.
  induction s as [| c s IH].
  - cbn [str_endswith]. rewrite orb_false_r.
    intros ->%String.eqb_eq. exists "". reflexivity.
  - cbn [str_endswith]. intros [->%String.eqb_eq | Hs]%orb_true_iff.
    + exists "". reflexivity.
    + destruct (IH Hs) as [stem ->]. exists (String c stem). reflexivity.
Qed.

(** ** Replacing the occurrences of a string *)

Section Replace.
Variables (a : ascii) (old' new : string).

Lemma replace_scan_skip (u post : string) :
  replace_scan (String a old') new (String.length u) (u +:+ post)
  = replace_scan (String a old') new 0 post.
Proof.
  induction u as [| c u IH].
  - rewrite str_app_nil_l. cbn [String.length]. reflexivity.
  - rewrite str_app_cons. cbn [String.length replace_scan]. exact IH.
Qed.

(** Up to and including the first occurrence: what is before it is kept,
    the occurrence is replaced, and the scan goes on behind it. *)
Lemma replace_scan_first (s : string) (n : nat) :
  str_find (String a old') s = Some n ->
  exists pre post,
    s = pre +:+ (String a old') +:+ post /\ String.length pre = n /\
    replace_scan (String a old') new 0 s
    = pre +:+ new +:+ replace_scan (String a old') new 0 post.
Proof.
  revert n. induction s as [| c s IH]; intros n.
  - cbn. discriminate.
  - cbn [str_find].
    destruct (String.prefix (String a old') (String c s)) eqn:Hp.
    + intros [= <-]. destruct (str_prefix_split _ _ Hp) as [post Hs].
      exists "", post. split; [exact Hs |]. split; [reflexivity |].
      cbn [replace_scan]. rewrite Hp. rewrite str_app_nil_l. f_equal.
      rewrite str_app_cons in Hs. injection Hs as _ ->.
      cbn [String.length]. rewrite Nat.sub_succ, Nat.sub_0_r.
      apply replace_scan_skip.
    + destruct (str_find (String a old') s) as [n' |] eqn:Hf; [| discriminate].
      intros [= <-]. destruct (IH n' eq_refl) as (pre & post & -> & <- & Hr).
      exists (String c pre), post.
      split; [reflexivity |]. split; [reflexivity |].
      cbn [replace_scan]. rewrite Hp. rewrite Hr. reflexivity.
Qed.

(** Without an occurrence nothing changes. *)
Lemma replace_scan_absent (s : string) :
  str_find (String a old') s = None -> replace_scan (String a old') new 0 s = s.
Proof.
  induction s as [| c s IH]; [reflexivity |].
  cbn [str_find replace_scan].
  destruct (String.prefix (String a old') (String c s)); [discriminate |].
  destruct (str_find (String a old') s); [discriminate |].
  intros _. rewrite IH; reflexivity.
Qed.

End Replace.

(** ** From a file name to the select box and back *)

(** A name in which the suffix first occurs at the very end is its stem
    followed by the suffix, and removing the suffix leaves the stem. *)
Lemma highway_name_of_file (f : string) :
  str_find change_points_suffix f
    = Some (String.length f - String.length change_points_suffix)%nat ->
  exists stem,
    f = stem +:+ change_points_suffix /\
    str_replace f change_points_suffix "" = stem.
Proof.
  unfold str_replace, change_points_suffix. intros Hfind.
  destruct (replace_scan_first _ _ "" f _ Hfind) as (pre & post & Hf & Hlen & Hr).
  assert (Hpost : post = "").
  { apply str_length_0. apply (f_equal String.length) in Hf.
    rewrite !str_length_app in Hf. cbn [String.length] in Hf, Hlen. lia. }
  subst post. rewrite str_app_nil_r in Hf.
  exists pre. split; [exact Hf |].
  rewrite Hr. rewrite str_app_nil_l. cbn [replace_scan]. apply str_app_nil_r.
Qed.

(** X10: a change-points file whose name holds the suffix only at its end
    is offered in the select box under its stem, and choosing that option
    builds the path of this very file. *)
Theorem highway_option_leads_back
    (path_join : string -> string -> string) (listdir : list string)
    (folder_path f : string) :
  f ∈ listdir ->
  str_find change_points_suffix f
    = Some (String.length f - String.length change_points_suffix)%nat ->
  str_replace f change_points_suffix "" ∈ highway_options listdir /\
  change_points_file path_join folder_path (str_replace f change_points_suffix "")
  = path_join folder_path f.
Proof.
  intros Hin Hfind.
  destruct (highway_name_of_file f Hfind) as (stem & Hf & Hstem).
  split.
  - unfold highway_options. apply list_elem_of_fmap.
    exists f. split; [reflexivity |].
    unfold change_point_files. apply list_elem_of_In, filter_In.
    split; [apply list_elem_of_In; exact Hin |].
    rewrite Hf. apply str_endswith_app.
  - unfold change_points_file. rewrite Hstem, <- Hf. reflexivity.
Qed.

Lemma highway_option_leads_back_witness :
  "NH44" ∈ highway_options
             ["NH44_segments_chainage.csv"; "NH44_change_points_coordinates.csv"] /\
  change_points_file (fun a b => a +:+ "/" +:+ b) "data" "NH44"
  = "data/NH44_change_points_coordinates.csv".
Proof.
  apply (highway_option_leads_back (fun a b => a +:+ "/" +:+ b)
           ["NH44_segments_chainage.csv"; "NH44_change_points_coordinates.csv"]
           "data" "NH44_change_points_coordinates.csv").
  - apply elem_of_cons. right. apply elem_of_cons. left. reflexivity.
  - vm_compute. reflexivity.
Defined.

Lemma str_find_unfold (sub s : string) :
  str_find sub s =
  if String.prefix sub s then Some 0%nat
  else match s with
       | EmptyString => None
       | String _ s' => S <$> str_find sub s'
       end.
Proof. destruct s; reflexivity. Qed.

(** The first occurrence is not behind any occurrence. *)
Lemma str_find_app_le (sub pre post : string) :
  exists n, str_find sub (pre +:+ sub +:+ post) = Some n /\ n <= String.length pre.
Proof.
  induction pre as [| c pre (n & IH & Hn)].
  - exists 0%nat. rewrite str_app_nil_l, str_find_unfold, str_prefix_app.
    split; [reflexivity | cbn [String.length]; lia].
  - rewrite str_app_cons, str_find_unfold.
    destruct (String.prefix sub (String c (pre +:+ sub +:+ post))).
    + exists 0%nat. split; [reflexivity | lia].
    + exists (S n). rewrite IH. split; [reflexivity | cbn [String.length]; lia].
Qed.

(** Of two strings that start the same text, the shorter is a prefix of
    the longer. *)
Lemma str_app_prefix (u v w x : string) :
  u +:+ v = w +:+ x -> String.length u <= String.length w ->
  String.prefix u w = true.
Proof.
  revert w. induction u as [| c u IH]; intros w Heq Hlen.
  - destruct w; reflexivity.
  - destruct w as [| c' w]; [cbn [String.length] in Hlen; lia |].
    rewrite !str_app_cons in Heq. injection Heq as -> Heq.
    cbn [String.prefix]. destruct (ascii_dec c' c'); [| contradiction].
    apply IH; [exact Heq | cbn [String.length] in Hlen; lia].
Qed.

(** Removing occurrences never lengthens a string. *)
Lemma replace_scan_remove_length (a : ascii) (old' : string) (k : nat) (s : string) :
  String.length (replace_scan (String a old') "" k s) <= String.length s.
Proof.
  revert k. induction s as [| c s IH]; intros k; [reflexivity |].
  cbn [replace_scan]. destruct k as [| k].
  - destruct (String.prefix (String a old') (String c s)).
    + rewrite str_app_nil_l. cbn [String.length].
      etransitivity; [apply IH | lia].
    + cbn [String.length]. apply le_n_S, IH.
  - cbn [String.length]. etransitivity; [apply IH | lia].
Qed.

(** The suffix does not overlap itself: no proper, non-empty beginning of
    it commutes with it. *)
Lemma change_points_suffix_unbordered (post : string) :
  post <> "" -> String.length post < String.length change_points_suffix ->
  post +:+ change_points_suffix <> change_points_suffix +:+ post.
Proof.
  intros Hne Hlen Heq.
  assert (Hp : String.prefix post change_points_suffix = true)
    by (apply (str_app_prefix _ _ _ _ Heq); lia).
  apply String.prefix_correct in Hp.
  assert (Hall : forallb
            (fun k => negb (String.eqb
               (String.substring 0 k change_points_suffix +:+ change_points_suffix)
               (change_points_suffix +:+ String.substring 0 k change_points_suffix)))
            (seq 1 29) = true)
    by (vm_compute; reflexivity).
  rewrite forallb_forall in Hall.
  specialize (Hall (String.length post)).
  rewrite Hp in Hall. rewrite Heq, String.eqb_refl in Hall.
  assert (Hk : In (String.length post) (seq 1 29)).
  { apply in_seq. change (String.length change_points_suffix) with 30%nat in Hlen.
    destruct post; [contradiction | cbn [String.length]; cbn [String.length] in Hlen; lia]. }
  specialize (Hall Hk). discriminate.
Qed.

(** X11: the option of a change-points file rebuilds the name of that
    file exactly when the suffix occurs in the name only at its end.  A
    name that holds the suffix earlier as well is listed, but its option
    names another file. *)
Theorem highway_option_rebuilds_iff (f : string) :
  str_endswith f change_points_suffix = true ->
  (str_replace f change_points_suffix "" +:+ change_points_suffix = f <->
   str_find change_points_suffix f
     = Some (String.length f - String.length change_points_suffix)%nat).
Proof.
  intros Hend. split.
  - intros Hback.
    destruct (str_endswith_split _ _ Hend) as [stem Hstem].
    destruct (str_find_app_le change_points_suffix stem "") as (n & Hfind & Hn).
    rewrite str_app_nil_r, <- Hstem in Hfind.
    rewrite Hfind. f_equal.
    unfold str_replace, change_points_suffix in Hback, Hfind.
    destruct (replace_scan_first _ _ "" f n Hfind) as (pre & post & Hf & Hlen & Hr).
    fold change_points_suffix in Hback, Hfind, Hf, Hr.
    assert (Hflen : String.length f
                    = (n + String.length change_points_suffix + String.length post)%nat).
    { rewrite Hf, !str_length_app, Hlen. lia. }
    destruct post as [| c post]; [cbn [String.length] in Hflen; lia |].
    exfalso.
    rewrite Hr, str_app_nil_l in Hback.
    rewrite Hf, str_app_assoc in Hback.
    apply (inj (String.append pre)) in Hback.
    assert (Hsame : String.length
                      (replace_scan change_points_suffix "" 0 (String c post))
                    = String.length (String c post)).
    { apply (f_equal String.length) in Hback.
      rewrite !str_length_app in Hback. lia. }
    destruct (str_find change_points_suffix (String c post)) as [m |] eqn:Hm.
    + unfold change_points_suffix in Hm, Hsame.
      destruct (replace_scan_first _ _ "" _ m Hm) as (pre2 & post2 & Hf2 & _ & Hr2).
      rewrite Hr2, str_app_nil_l in Hsame. rewrite Hf2 in Hsame.
      rewrite !str_length_app in Hsame.
      pose proof (replace_scan_remove_length
                    "_" "change_points_coordinates.csv" 0 post2) as Hle.
      cbn [String.length] in Hsame. lia.
    + unfold change_points_suffix in Hm, Hback.
      rewrite (replace_scan_absent _ _ "" _ Hm) in Hback.
      fold change_points_suffix in Hm, Hback.
      destruct (le_lt_dec (String.length change_points_suffix)
                  (String.length (String c post))) as [Hlong | Hshort].
      * assert (Hp : String.prefix change_points_suffix (String c post) = true)
          by (apply (str_app_prefix _ _ _ _ (eq_sym Hback)); exact Hlong).
        rewrite str_find_unfold, Hp in Hm. discriminate.
      * apply (change_points_suffix_unbordered (String c post));
          [discriminate | exact Hshort | exact Hback].
  - intros Hfind.
    destruct (highway_name_of_file f Hfind) as (stem & Hf & ->).
    symmetry. exact Hf.
Qed.

Lemma highway_option_rebuilds_iff_witness :
  str_endswith "NH44_change_points_coordinates.csv" change_points_suffix = true /\
  str_replace "NH44_change_points_coordinates.csv" change_points_suffix ""
    +:+ change_points_suffix
  = "NH44_change_points_coordinates.csv".
Proof.
  assert (Hend : str_endswith "NH44_change_points_coordinates.csv"
                   change_points_suffix = true)
    by (vm_compute; reflexivity).
  split; [exact Hend |].
  apply (proj2 (highway_option_rebuilds_iff "NH44_change_points_coordinates.csv" Hend)).
  vm_compute. reflexivity.
Defined.

(** A name with the suffix twice: it is listed, offered as "NH44", and
    the path built from "NH44" is that of another file. *)
Example highway_option_of_doubled_suffix :
  highway_options
    ["NH44_change_points_coordinates.csv_change_points_coordinates.csv"]
  = ["NH44"].
Proof. vm_compute. reflexivity. Qed.

(** ** Hover texts and bars *)

Lemma numbered_text_inj (label : string) :
  Inj (=) (=) (fun i : nat => label +:+ pretty (i + 1)%nat).
Proof.
  intros i j Hij. apply (inj (String.append label)) in Hij.
  apply (inj pretty) in Hij. lia.
Qed.

(** X12: the hover texts of the map are "Change Point 1", "Change Point
    2", ... in path order: one per change point, the text of row [i]
    carrying the number [i + 1], and no two of them equal. *)
Theorem change_point_texts_numbered (n : nat) :
  length (change_point_texts n) = n /\
  NoDup (change_point_texts n) /\
  forall i : nat, i < n ->
    change_point_texts n !! i = Some ("Change Point " +:+ pretty (i + 1)%nat).
Proof.
  unfold change_point_texts. split; [| split].
  - rewrite length_fmap. apply length_seq.
  - apply (NoDup_fmap_2 _ (Inj0 := numbered_text_inj "Change Point ")).
    apply NoDup_seq.
  - intros i Hi. rewrite list_lookup_fmap, lookup_seq_lt by exact Hi.
    reflexivity.
Qed.

(** [apply] over the row numbers of a column. *)
Lemma series_apply_seq {A B} (f : nat -> result B) (g : nat -> A -> B)
    (l : list A) (k : nat) :
  (forall i x, l !! i = Some x -> f (k + i)%nat = Ok (g (k + i)%nat x)) ->
  series_apply f (seq k (length l)) = Ok (imap (fun i => g (k + i)%nat) l).
Proof.
  revert k. induction l as [| x l IH]; intros k Hf; [reflexivity |].
  cbn [length seq series_apply mbind result_bind imap].
  pose proof (Hf 0%nat x eq_refl) as H0. rewrite Nat.add_0_r in H0.
  rewrite H0, Nat.add_0_r.
  rewrite (IH (S k)).
  - cbn [mbind result_bind]. do 2 f_equal.
    apply imap_ext. intros i y _. cbn [compose]. f_equal. lia.
  - intros i y Hi. specialize (Hf (S i) y Hi).
    replace (S k + i)%nat with (k + S i)%nat by lia. exact Hf.
Qed.

Section Bars.
Context {T : Type} `{PyNum T}.
Implicit Types (df out : DataFrame T) (temps : list T).

Lemma row_getitem_lookup df (key : string) (col : Series T) (i : nat) (x : Cell T) :
  df !! key = Some col -> col !! i = Some x -> row_getitem df i key = Ok x.
Proof. intros Hcol Hi. unfold row_getitem. rewrite Hcol, Hi. reflexivity. Qed.


End Bars.

Lemma change_point_texts_numbered_witness :
  change_point_texts 12 !! 9%nat = Some "Change Point 10".
Proof.
  apply (proj2 (proj2 (change_point_texts_numbered 12)) 9%nat). lia.
Defined.


(** ** The table that is shown *)

Section ShownTable.
Context {T : Type} `{PyNum T}.
Implicit Types (df out shown : DataFrame T).

(** X14: the segments table that is displayed.  After an augmentation
    that ended normally, selecting the four displayed columns succeeds
    exactly when the table came with a [start_km] and an [end_km] column;
    the selection then holds these four columns and no other (the color
    column is not shown), each as the augmented table has it. *)
Theorem shown_columns_of_augmented df out :
  add_vg_grades_and_colors df = (Ok tt, out) ->
  ((exists shown, select_columns out shown_columns = Ok shown) <->
   is_Some (df !! "start_km") /\ is_Some (df !! "end_km")) /\
  (forall shown, select_columns out shown_columns = Ok shown ->
     dom shown = {[ "start_km"; "end_km"; "mean_temp"; "vg_grade" ]} /\
     shown !! "color" = None /\
     forall c : string, c ∈ shown_columns -> shown !! c = out !! c).
Proof.
  intros Hrun.
  pose proof (add_vg_grades_and_colors_augmented df) as Haug.
  rewrite Hrun in Haug. cbn [fst snd] in Haug.
  inversion Haug as [| | col vg_grade color Hcol Hg Hc Hr Hout]; subst.
  unfold shown_columns. cbn [select_columns].
  rewrite !(lookup_insert_ne _ "color") by discriminate.
  rewrite !(lookup_insert_ne _ "vg_grade" "start_km") by discriminate.
  rewrite !(lookup_insert_ne _ "vg_grade" "end_km") by discriminate.
  rewrite !(lookup_insert_ne _ "vg_grade" "mean_temp") by discriminate.
  rewrite lookup_insert_eq, Hcol.
  destruct (df !! "start_km") as [start_km |] eqn:Hs;
    [| split; [split; [intros [shown [=]] | intros [[? [=]] _]] | intros shown [=]]].
  destruct (df !! "end_km") as [end_km |] eqn:He;
    [| split; [split; [intros [shown [=]] | intros [_ [? [=]]]] | intros shown [=]]].
  cbn [mbind result_bind]. split.
  - split; [intros _; split; eexists; reflexivity | intros _; eexists; reflexivity].
  - intros shown [= <-]. split; [| split].
    + rewrite !dom_insert_L, dom_empty_L. apply set_eq. intros c.
      rewrite !elem_of_union, !elem_of_singleton, elem_of_empty. tauto.
    + rewrite !lookup_insert_ne by discriminate. apply lookup_empty.
    + intros c Hin.
      repeat (apply elem_of_cons in Hin as [-> | Hin]);
        try (apply elem_of_nil in Hin; contradiction).
      * rewrite lookup_insert_eq.
        rewrite !lookup_insert_ne by discriminate. symmetry. exact Hs.
      * rewrite lookup_insert_ne by discriminate. rewrite lookup_insert_eq.
        rewrite !lookup_insert_ne by discriminate. symmetry. exact He.
      * rewrite !(lookup_insert_ne _ "start_km") by discriminate.
        rewrite !(lookup_insert_ne _ "end_km") by discriminate.
        rewrite lookup_insert_eq.
        rewrite !lookup_insert_ne by discriminate. symmetry. exact Hcol.
      * rewrite !(lookup_insert_ne _ "start_km") by discriminate.
        rewrite !(lookup_insert_ne _ "end_km") by discriminate.
        rewrite !(lookup_insert_ne _ "mean_temp") by discriminate.
        rewrite lookup_insert_eq.
        rewrite lookup_insert_ne by discriminate. rewrite lookup_insert_eq.
        reflexivity.
Qed.

End ShownTable.

Lemma shown_columns_of_augmented_witness :
  exists shown : DataFrame Q,
    select_columns (add_vg_grades_and_colors segments_example).2 shown_columns
    = Ok shown.
Proof.
  apply (proj1 (shown_columns_of_augmented segments_example
                  (add_vg_grades_and_colors segments_example).2
                  ltac:(vm_compute; reflexivity))).
  split; eexists; vm_compute; reflexivity.
Defined.

(** ** The length metric *)

Lemma foldl_Qmax_bool_contiguous (x : Q) (start_km end_km : list Q) :
  contiguous_from x start_km end_km ->
  (foldl Qmax_bool x end_km == x + segment_lengths_sum start_km end_km)%Q.
Proof.
  revert x start_km. induction end_km as [| e end_km IH]; intros x start_km.
  - destruct start_km; [| contradiction]. intros _. cbn. lra.
  - destruct start_km as [| s start_km]; [contradiction |].
    cbn [contiguous_from foldl segment_lengths_sum]. intros (Hs & Hse & Hrest).
    assert (Hmax : Qmax_bool x e = e).
    { unfold Qmax_bool. destruct (Qle_bool_reflect x e) as [_ | Hn];
        [reflexivity | exfalso; lra]. }
    rewrite Hmax, (IH e start_km Hrest). lra.
Qed.

(** X15: when the segments follow one another from kilometre 0 without
    gaps, the figure shown as total highway length, the largest [end_km],
    is the sum of the lengths of the segments. *)
Theorem total_highway_length_contiguous (start_km end_km : list Q) :
  contiguous_from 0 start_km end_km ->
  end_km <> [] ->
  exists m : Q,
    total_highway_length end_km = Some m /\
    (m == segment_lengths_sum start_km end_km)%Q.
Proof.
  intros Hc Hne.
  destruct end_km as [| e end_km]; [contradiction |].
  destruct start_km as [| s start_km]; [contradiction |].
  cbn [contiguous_from] in Hc. destruct Hc as (Hs & Hse & Hrest).
  eexists. split; [reflexivity |].
  rewrite (foldl_Qmax_bool_contiguous e start_km end_km Hrest).
  cbn [segment_lengths_sum]. lra.
Qed.

Lemma total_highway_length_contiguous_witness :
  exists m : Q,
    total_highway_length [12.5; 30]%Q = Some m /\
    (m == segment_lengths_sum [0; 12.5]%Q [12.5; 30]%Q)%Q.
Proof.
  apply (total_highway_length_contiguous [0; 12.5]%Q [12.5; 30]%Q).
  - vm_compute. repeat split; discriminate.
  - discriminate.
Defined.

(** With a gap the figure is no longer the sum of the lengths. *)
Example total_highway_length_with_gap :
  total_highway_length [10; 30]%Q = Some 30%Q /\
  (segment_lengths_sum [0; 20]%Q [10; 30]%Q == 20)%Q.
Proof. split; vm_compute; reflexivity. Qed.

(** ** What a finished augmentation leaves in the table *)

Section AugmentedColumns.
Context {T : Type} `{PyNum T}.
Implicit Types (df out : DataFrame T) (col : Series T).

(** The classifier gets through a column only if all its cells are
    numbers. *)
Lemma series_apply_determine_vg_grade_Ok col (vg_grade : Series T) :
  series_apply call_determine_vg_grade col = Ok vg_grade ->
  exists temps : list T,
    col = Num <$> temps /\ vg_grade = Str <$> (determine_vg_grade <$> temps).
Proof.
  revert vg_grade. induction col as [| c col IH]; intros vg_grade.
  - intros [= <-]. exists []. split; reflexivity.
  - cbn [series_apply mbind result_bind].
    destruct c as [t | s]; [| discriminate].
    cbn [call_determine_vg_grade].
    destruct (series_apply call_determine_vg_grade col) as [ys | e];
      [| discriminate].
    intros [= <-]. destruct (IH ys eq_refl) as (temps & -> & ->).
    exists (t :: temps). split; reflexivity.
Qed.

(** X16: the columns of a finished augmentation.  When the two
    statements end normally, the temperature column held numbers only,
    every cell of the grade column is one of the five labels and every
    cell of the color column is one of the five table colors: the default
    gray is never written into the table. *)
Theorem augmented_columns_closed df out :
  add_vg_grades_and_colors df = (Ok tt, out) ->
  exists (temps : list T) (grades shades : list string),
    df !! "mean_temp" = Some (Num <$> temps) /\
    out !! "vg_grade" = Some (Str <$> grades) /\
    out !! "color" = Some (Str <$> shades) /\
    length grades = length temps /\
    length shades = length temps /\
    Forall (fun g => g ∈ vg_grades) grades /\
    Forall (fun c => c ∈ table_colors /\ c <> "#7f7f7f") shades.
Proof.
  intros Hrun.
  pose proof (add_vg_grades_and_colors_augmented df) as Haug.
  rewrite Hrun in Haug. cbn [fst snd] in Haug.
  inversion Haug as [| | col vg_grade color Hcol Hg Hc Hr Hout]; subst.
  destruct (series_apply_determine_vg_grade_Ok col vg_grade Hg) as (temps & -> & ->).
  rewrite series_apply_get_vg_grade_color in Hc. injection Hc as <-.
  exists temps, (determine_vg_grade <$> temps),
    (get_vg_grade_color <$> (determine_vg_grade <$> temps)).
  assert (Hgrade : forall t : T, determine_vg_grade t ∈ vg_grades).
  { intros t. unfold vg_grades.
    destruct (determine_vg_grade_cases t) as [-> | [-> | [-> | [-> | ->]]]];
      set_solver. }
  split; [exact Hcol |].
  split; [rewrite lookup_insert_ne by discriminate; apply lookup_insert_eq |].
  split; [apply lookup_insert_eq |].
  split; [apply length_fmap |].
  split; [rewrite !length_fmap; reflexivity |].
  split.
  - apply Forall_fmap, Forall_forall. intros t _. apply Hgrade.
  - rewrite <- list_fmap_compose. apply Forall_fmap, Forall_forall.
    intros t _. cbn [compose].
    pose proof (get_vg_grade_color_known _ (Hgrade t)) as Hc.
    split; [exact Hc |].
    intros E. rewrite E in Hc. exact (gray_not_table_color Hc).
Qed.

End AugmentedColumns.

Lemma augmented_columns_closed_witness :
  exists (temps : list Q) (grades shades : list string),
    segments_example !! "mean_temp" = Some (Num <$> temps) /\
    (add_vg_grades_and_colors segments_example).2 !! "vg_grade" = Some (Str <$> grades) /\
    (add_vg_grades_and_colors segments_example).2 !! "color" = Some (Str <$> shades) /\
    length grades = length temps /\
    length shades = length temps /\
    Forall (fun g => g ∈ vg_grades) grades /\
    Forall (fun c => c ∈ table_colors /\ c <> "#7f7f7f") shades.
Proof.
  apply (augmented_columns_closed segments_example
           (add_vg_grades_and_colors segments_example).2).
  vm_compute. reflexivity.
Defined.
